(** * ts-shelf: the API connector (src/Connector/Connector.ts)

    A shallow embedding of [ConnectorClass] and of the part of the browser
    runtime it talks to (the [fetch] transport, [Response] objects, promise
    chaining with [then]/[catch], [window.location.host]), followed by the
    properties of the connector's observable contract. *)

From Stdlib Require Import ZArith.
From stdpp Require Import base option list strings gmap.

(** ** JavaScript values and errors *)

Record Blob : Type := { blob_type : string; blob_bytes : list Byte.byte }.

(** Values of type [any]: request bodies, option values, and whatever a
    request resolves with.  Numbers are restricted to integers. *)
#[warnings="-register-all"]
Inductive JsValue : Type :=
| JUndefined
| JNull
| JBool (b : bool)
| JNumber (n : Z)
| JString (s : string)
| JArray (items : list JsValue)
| JObject (fields : list (string * JsValue))
| JBlob (b : Blob).

(** [RequestInit] is a plain object: a finite map from property names to
    values.  [{}] is the empty map. *)
Abbreviation RequestInit := (gmap string JsValue).

(** ToBoolean, as used by [x || y] and [x ? a : b]. *)
Definition truthy (v : JsValue) : bool :=
  match v with
  | JUndefined | JNull => false
  | JBool b => b
  | JNumber n => negb (n =? 0)%Z
  | JString s => match s with EmptyString => false | String _ _ => true end
  | JArray _ | JObject _ | JBlob _ => true
  end.

(** ToBoolean on a value statically known to be a string. *)
Definition truthy_string (s : string) : bool := truthy (JString s).

(** Modelled from the spec: the classes [HttpError] and [NetworkError] are
    imported from [../errors], which is not part of the sources at hand.  The
    spec gives their shape: HttpError carries (status, statusText),
    NetworkError carries a message, and they are error kinds distinct from each
    other and from the built-in [SyntaxError].  The remaining constructors are
    the built-in error classes a transport can reject with. *)
Inductive JsError : Type :=
| SyntaxError (message : string)
| HttpError (status : Z) (statusText : string)
| NetworkError (message : string)
| Error (message : string)
| TypeError (message : string)
| DOMException (name message : string).

(** [err instanceof SyntaxError] and [err instanceof HttpError]. *)
Definition instanceof_SyntaxError (err : JsError) : bool :=
  match err with SyntaxError _ => true | _ => false end.

Definition instanceof_HttpError (err : JsError) : bool :=
  match err with HttpError _ _ => true | _ => false end.

(** [err.message]. For an HttpError it is whatever the missing class passes to
    its super constructor; the connector never reads it (HttpErrors are
    rethrown before [err.message] is evaluated), so the status text stands in. *)
Definition message_of (err : JsError) : string :=
  match err with
  | SyntaxError m | NetworkError m | Error m | TypeError m => m
  | DOMException _ m => m
  | HttpError _ t => t
  end.

(** ** Promises *)

(** The two ways a promise settles. *)
Inductive Settled (A : Type) : Type :=
| Resolved (value : A)
| Rejected (reason : JsError).
Arguments Resolved {A} value.
Arguments Rejected {A} reason.

(** What the [Response] of a transport exposes: the status line and, for each
    body-extraction operation, how the promise it returns settles. *)
Record Response : Type := {
  ok : bool;
  status : Z;
  statusText : string;
  json_body : Settled JsValue;
  text_body : Settled string;
  blob_body : Settled Blob
}.

(** Observable events, in program order. *)
Inductive Event : Type :=
| EvHostRead (h : string)                    (* evaluation of this.host *)
| EvHostWrite (h : string)                   (* assignment to this.host *)
| EvFetch (input : string) (init : RequestInit)   (* fetch(input, init) *)
| EvJson                                     (* response.json() *)
| EvText                                     (* response.text() *)
| EvBlob                                     (* response.blob() *)
| EvConnect (h : string)                     (* io.connect(host) *)
| EvMessager (connection : JsValue).         (* messager(connection) *)

(** What running a [then]/[catch] callback amounts to: the calls it makes and
    the settlement of the promise it returns (a [throw] is a rejection). *)
Definition Reaction (A : Type) : Type := list Event * Settled A.

Definition resolve {A} (a : A) : Reaction A := ([], Resolved a).
Definition throw {A} (e : JsError) : Reaction A := ([], Rejected e).

Definition settled_map {A B} (f : A -> B) (s : Settled A) : Settled B :=
  match s with
  | Resolved a => Resolved (f a)
  | Rejected e => Rejected e
  end.

(** [response.json()], [response.text()], [response.blob()]. *)
Definition json (response : Response) : Reaction JsValue :=
  ([EvJson], json_body response).
Definition text (response : Response) : Reaction JsValue :=
  ([EvText], settled_map JString (text_body response)).
Definition blob (response : Response) : Reaction JsValue :=
  ([EvBlob], settled_map JBlob (blob_body response)).

(** Every promise the connector builds is a chain hanging off one
    [fetch(input, init)] call.  Such a promise is pending until the transport
    answers; [settle] says what the chain does with the answer. *)
Record Promise (A : Type) : Type := {
  input : string;
  init : RequestInit;
  settle : Settled Response -> Reaction A
}.
Arguments input {A} _.
Arguments init {A} _.
Arguments settle {A} _ _.

(** [p.then(f)]: [f] runs on fulfilment only, a rejection passes through. *)
Definition then_ {A B} (p : Promise A) (f : A -> Reaction B) : Promise B :=
  {| input := input p;
     init := init p;
     settle := fun answer =>
       match settle p answer with
       | (t, Resolved a) => let '(t', s) := f a in (t ++ t', s)
       | (t, Rejected e) => (t, Rejected e)
       end |}.

(** [p.catch(g)]: [g] runs on rejection only, a value passes through. *)
Definition catch_ {A} (p : Promise A) (g : JsError -> Reaction A) : Promise A :=
  {| input := input p;
     init := init p;
     settle := fun answer =>
       match settle p answer with
       | (t, Resolved a) => (t, Resolved a)
       | (t, Rejected e) => let '(t', s) := g e in (t ++ t', s)
       end |}.

(** ** Synchronous method bodies *)

Record ConnectorClass : Type := { host : string }.

(** [window.location]. *)
Record Location : Type := { location_host : string }.

(** A method body runs against [this] and may read it, write it, and call
    out. *)
Definition M (A : Type) : Type := ConnectorClass -> A * ConnectorClass * list Event.

Definition ret {A} (a : A) : M A := fun this => (a, this, []).

Definition bind {A B} (m : M A) (k : A -> M B) : M B :=
  fun this =>
    let '(a, this1, t1) := m this in
    let '(b, this2, t2) := k a this1 in
    (b, this2, t1 ++ t2).

Declare Scope method_scope.
Delimit Scope method_scope with method.
Notation "'let*' x ':=' m 'in' k" := (bind m (fun x => k))
  (at level 10, x name, m at level 100, k at level 200) : method_scope.
Notation "m ';;' k" := (bind m (fun _ => k))
  (at level 100, k at level 200, right associativity) : method_scope.

(** [this.host] *)
Definition this_host : M string :=
  fun this => (host this, this, [EvHostRead (host this)]).

(** [this.host = h] *)
Definition set_this_host (h : string) : M unit :=
  fun _ => (tt, {| host := h |}, [EvHostWrite h]).

Definition emit (t : list Event) : M unit := fun this => (tt, this, t).

(** [fetch(input, init)]: the request leaves now, the promise is pending. *)
Definition fetch (url : string) (config : RequestInit) : M (Promise Response) :=
  fun this =>
    ({| input := url; init := config; settle := fun answer => ([], answer) |},
     this, [EvFetch url config]).

(** ** The connector *)

(** [JSON.stringify] is a built-in of the runtime; the connector only passes
    its result on as the request body. *)
Section Connector.

Variable JSON_stringify : JsValue -> string.

(** [constructor()] *)
Definition constructor (window_location : Location) : ConnectorClass :=
  {| host := location_host window_location |}.

(** [setHost(host?: string)]: [this.host = host || window.location.host]. *)
Definition setHost (window_location : Location) (host : option string) : M unit :=
  set_this_host
    (match host with
     | Some h => if truthy_string h then h else location_host window_location
     | None => location_host window_location
     end).

(** The [catch] handler, written out in each of the seven request methods. *)
Definition on_error {A} (err : JsError) : Reaction A :=
  if instanceof_SyntaxError err then throw (Error "fetchApi: bad JSON")
  else if instanceof_HttpError err then throw err
  else throw (NetworkError (message_of err)).

(** [fetchApi<D>(path, options = {}, prefix = 'api')] *)
Definition fetchApi (path : string) (options : option RequestInit)
    (prefix : option string) : M (Promise JsValue) :=
  let options := default ∅ options in
  let prefix := default "api" prefix in
  (let* h := this_host in
   let url := "//" +:+ h +:+ "/" +:+
              (if truthy_string prefix then prefix +:+ "/" else EmptyString) +:+ path in
   let* p := fetch url (<["credentials" := JString "include"]> options) in
   ret (catch_
          (then_ p (fun response =>
             if negb (ok response)
             then throw (HttpError (status response) (statusText response))
             else json response))
          on_error))%method.

(** [postApi<D>(path, body, options = {}, prefix = 'api')] *)
Definition postApi (path : string) (body : JsValue) (options : option RequestInit)
    (prefix : option string) : M (Promise JsValue) :=
  let options := default ∅ options in
  let prefix := default "api" prefix in
  (let* h := this_host in
   let url := "//" +:+ h +:+ "/" +:+
              (if truthy_string prefix then prefix +:+ "/" else EmptyString) +:+ path in
   let* p := fetch url
     (<["method" := JString "POST"]>
        (<["headers" := JObject [("Content-Type", JString "application/json")]]>
           (<["credentials" := JString "include"]>
              (<["body" := JString (JSON_stringify
                                      (if truthy body then body else JObject []))]>
                 options)))) in
   ret (catch_
          (then_ p (fun response =>
             if negb (ok response)
             then throw (HttpError (status response) (statusText response))
             else if (status response =? 204)%Z
             then text response
             else json response))
          on_error))%method.

(** [patchApi<D>(path, body, options = {}, prefix = 'api')] *)
Definition patchApi (path : string) (body : JsValue) (options : option RequestInit)
    (prefix : option string) : M (Promise JsValue) :=
  let options := default ∅ options in
  let prefix := default "api" prefix in
  (let* h := this_host in
   let url := "//" +:+ h +:+ "/" +:+
              (if truthy_string prefix then prefix +:+ "/" else EmptyString) +:+ path in
   let* p := fetch url
     (<["method" := JString "PATCH"]>
        (<["headers" := JObject [("Content-Type", JString "application/json")]]>
           (<["credentials" := JString "include"]>
              (<["body" := JString (JSON_stringify
                                      (if truthy body then body else JObject []))]>
                 options)))) in
   ret (catch_
          (then_ p (fun response =>
             if negb (ok response)
             then throw (HttpError (status response) (statusText response))
             else if (status response =? 204)%Z
             then text response
             else json response))
          on_error))%method.

(** [deleteApi<D>(path, options = {}, prefix = 'api')] *)
Definition deleteApi (path : string) (options : option RequestInit)
    (prefix : option string) : M (Promise JsValue) :=
  let options := default ∅ options in
  let prefix := default "api" prefix in
  (let* h := this_host in
   let url := "//" +:+ h +:+ "/" +:+
              (if truthy_string prefix then prefix +:+ "/" else EmptyString) +:+ path in
   let* p := fetch url
     (<["method" := JString "DELETE"]>
        (<["headers" := JObject [("Content-Type", JString "application/json")]]>
           (<["credentials" := JString "include"]> options))) in
   ret (catch_
          (then_ p (fun response =>
             if negb (ok response)
             then throw (HttpError (status response) (statusText response))
             else json response))
          on_error))%method.

(** [getApi(path, options = {}, prefix = 'api')] *)
Definition getApi (path : string) (options : option RequestInit)
    (prefix : option string) : M (Promise JsValue) :=
  let options := default ∅ options in
  let prefix := default "api" prefix in
  (let* h := this_host in
   let url := "//" +:+ h +:+ "/" +:+
              (if truthy_string prefix then prefix +:+ "/" else EmptyString) +:+ path in
   let* p := fetch url (<["credentials" := JString "include"]> options) in
   ret (catch_
          (then_ p (fun response =>
             if negb (ok response)
             then throw (HttpError (status response) (statusText response))
             else text response))
          on_error))%method.

(** [headApi(path, options = {}, prefix = 'api')] *)
Definition headApi (path : string) (options : option RequestInit)
    (prefix : option string) : M (Promise JsValue) :=
  let options := default ∅ options in
  let prefix := default "api" prefix in
  (let* h := this_host in
   let url := "//" +:+ h +:+ "/" +:+
              (if truthy_string prefix then prefix +:+ "/" else EmptyString) +:+ path in
   let* p := fetch url
     (<["credentials" := JString "include"]>
        (<["method" := JString "HEAD"]> options)) in
   ret (catch_
          (then_ p (fun response =>
             if negb (ok response)
             then resolve (JBool true)
             else resolve (JBool false)))
          on_error))%method.

(** [downloadApi(path, options = {}, prefix = 'api')] *)
Definition downloadApi (path : string) (options : option RequestInit)
    (prefix : option string) : M (Promise JsValue) :=
  let options := default ∅ options in
  let prefix := default "api" prefix in
  (let* h := this_host in
   let url := "//" +:+ h +:+ "/" +:+
              (if truthy_string prefix then prefix +:+ "/" else EmptyString) +:+ path in
   let* p := fetch url (<["credentials" := JString "include"]> options) in
   ret (catch_
          (then_ p (fun response =>
             if negb (ok response)
             then throw (HttpError (status response) (statusText response))
             else blob response))
          on_error))%method.

(** The socket collaborator: [{ connect(host: string): any }]. *)
Record Io : Type := { connect : string -> JsValue }.

(** [openSocketConnection(io, messager)].  The two collaborators live outside
    the module (the spec treats them as external): what they do on their own
    side is not part of this model, the calls made to them are recorded. *)
Definition openSocketConnection (io : Io) (messager : JsValue -> unit) : M unit :=
  (let* h := this_host in
   let connection := connect io h in
   emit [EvConnect h] ;;
   let _ := messager connection in
   emit [EvMessager connection])%method.

(** The seven request methods, by name. *)
Inductive ApiMethod : Type :=
| FetchApi | PostApi | PatchApi | DeleteApi | GetApi | HeadApi | DownloadApi.

(** [Connector[m](...)]: [body] is the second argument of postApi and patchApi
    and is not a parameter of the other methods. *)
Definition call_api (m : ApiMethod) (path : string) (body : JsValue)
    (options : option RequestInit) (prefix : option string) : M (Promise JsValue) :=
  match m with
  | FetchApi => fetchApi path options prefix
  | PostApi => postApi path body options prefix
  | PatchApi => patchApi path body options prefix
  | DeleteApi => deleteApi path options prefix
  | GetApi => getApi path options prefix
  | HeadApi => headApi path options prefix
  | DownloadApi => downloadApi path options prefix
  end.

(** ** Calling a method and awaiting the result *)

(** [await m.call(this)] when the transport settles the request with [answer]:
    the settlement of the returned promise, [this] afterwards, and the events
    in order. *)
Definition await (m : M (Promise JsValue)) (this : ConnectorClass)
    (answer : Settled Response) : Settled JsValue * ConnectorClass * list Event :=
  let '(p, this', t) := m this in
  let '(t', s) := settle p answer in
  (s, this', t ++ t').

(** ** The page: one connector, many requests in flight *)

(** A request the connector has issued: its promise and, once the transport
    has answered, how the promise settled. *)
Record Request : Type := {
  promise : Promise JsValue;
  outcome : option (Settled JsValue)
}.

(** The module's state as a page runs: the ambient location, the exported
    singleton [Connector], the requests issued so far (a request's id is its
    position), and everything observed so far. *)
Record Page : Type := {
  window_location : Location;
  Connector : ConnectorClass;
  requests : list Request;
  trace : list Event
}.

(** [export function initConnect(host?: string)] *)
Definition initConnect (window_location : Location) (host : option string) : M unit :=
  setHost window_location host.

(** What can happen next: the page's code calls into the module, or the
    transport answers a request that is in flight.  An answer runs the
    request's [then]/[catch] chain to its settlement. *)
Inductive Action : Type :=
| ACall (m : ApiMethod) (path : string) (body : JsValue)
        (options : option RequestInit) (prefix : option string)
| ASetHost (host : option string)
| AInitConnect (host : option string)
| AOpenSocket (io : Io) (messager : JsValue -> unit)
| AAnswer (id : nat) (answer : Settled Response).

Definition step (pg : Page) (a : Action) : Page :=
  match a with
  | ACall m path body options prefix =>
      let '(p, this', t) := call_api m path body options prefix (Connector pg) in
      {| window_location := window_location pg;
         Connector := this';
         requests := requests pg ++ [{| promise := p; outcome := None |}];
         trace := trace pg ++ t |}
  | ASetHost h =>
      let '(_, this', t) := setHost (window_location pg) h (Connector pg) in
      {| window_location := window_location pg;
         Connector := this';
         requests := requests pg;
         trace := trace pg ++ t |}
  | AInitConnect h =>
      let '(_, this', t) := initConnect (window_location pg) h (Connector pg) in
      {| window_location := window_location pg;
         Connector := this';
         requests := requests pg;
         trace := trace pg ++ t |}
  | AOpenSocket io messager =>
      let '(_, this', t) := openSocketConnection io messager (Connector pg) in
      {| window_location := window_location pg;
         Connector := this';
         requests := requests pg;
         trace := trace pg ++ t |}
  | AAnswer id answer =>
      match requests pg !! id with
      | Some {| promise := p; outcome := None |} =>
          let '(t, s) := settle p answer in
          {| window_location := window_location pg;
             Connector := Connector pg;
             requests := <[id := {| promise := p; outcome := Some s |}]> (requests pg);
             trace := trace pg ++ t |}
      | _ => pg
      end
  end.

Definition exec (pg : Page) (acts : list Action) : Page := foldl step pg acts.

(** Loading the module: [new ConnectorClass()]. *)
Definition load (window_location : Location) : Page :=
  {| window_location := window_location;
     Connector := constructor window_location;
     requests := [];
     trace := [] |}.

End Connector.

(** ** Vocabulary of the statements *)

(** The URL rule in the words of the documentation:
    [//{host}/{prefix}/{path}] when the prefix is non-empty, else
    [//{host}/{path}]. *)
Definition documented_url (host prefix path : string) : string :=
  if decide (prefix = EmptyString)
  then "//" +:+ host +:+ "/" +:+ path
  else "//" +:+ host +:+ "/" +:+ prefix +:+ "/" +:+ path.

Definition is_body_read (e : Event) : bool :=
  match e with EvJson | EvText | EvBlob => true | _ => false end.

Definition is_host_read (e : Event) : bool :=
  match e with EvHostRead _ => true | _ => false end.

Definition is_host_write (e : Event) : bool :=
  match e with EvHostWrite _ => true | _ => false end.

Definition is_fetch (e : Event) : bool :=
  match e with EvFetch _ _ => true | _ => false end.

(** The methods whose promise resolves with the response body. *)
Definition body_returning (m : ApiMethod) : bool :=
  match m with HeadApi => false | _ => true end.

(** The methods whose success mapping is [response.json()]. *)
Definition json_mapping (m : ApiMethod) : bool :=
  match m with FetchApi | PostApi | PatchApi | DeleteApi => true | _ => false end.

Definition body_reads (t : list Event) : list Event := List.filter is_body_read t.
Definition host_reads (t : list Event) : list Event := List.filter is_host_read t.
Definition host_writes (t : list Event) : list Event := List.filter is_host_write t.
Definition fetches (t : list Event) : list Event := List.filter is_fetch t.

(** The three components of a run. *)
Definition settlement {A B C} (run : A * B * C) : A := run.1.1.
Definition this_after {A B C} (run : A * B * C) : B := run.1.2.
Definition events {A B C} (run : A * B * C) : C := run.2.

(** The actions that are calls of [setHost], directly or through
    [initConnect]. *)
Definition calls_setHost (a : Action) : bool :=
  match a with ASetHost _ | AInitConnect _ => true | _ => false end.

(** The promise and the URL of the request with a given id. *)
Definition promise_of (pg : Page) (id : nat) : option (Promise JsValue) :=
  promise <$> requests pg !! id.

Definition url_of (pg : Page) (id : nat) : option string :=
  input <$> promise_of pg id.

(** The events a step adds to the page's trace. *)
Definition new_events (before after : Page) : list Event :=
  drop (length (trace before)) (trace after).

(** The host [setHost(h)] is documented to store: [h] when it is a non-empty
    string, the ambient [window.location.host] otherwise. *)
Definition chosen_host (window_location : Location) (h : option string) : string :=
  match h with
  | Some (String c s) => String c s
  | Some EmptyString | None => location_host window_location
  end.

(** ** Vocabulary for the request configuration and the response mapping *)

(** [{ 'Content-Type': 'application/json' }] *)
Definition json_headers : JsValue :=
  JObject [("Content-Type", JString "application/json")].

(** The verb a method writes into the configuration, if it writes one. *)
Definition forced_method (m : ApiMethod) : option string :=
  match m with
  | PostApi => Some "POST"
  | PatchApi => Some "PATCH"
  | DeleteApi => Some "DELETE"
  | HeadApi => Some "HEAD"
  | FetchApi | GetApi | DownloadApi => None
  end.

(** The methods that write [headers], and those that write [body]. *)
Definition forces_headers (m : ApiMethod) : bool :=
  match m with PostApi | PatchApi | DeleteApi => true | _ => false end.

Definition sends_body (m : ApiMethod) : bool :=
  match m with PostApi | PatchApi => true | _ => false end.

(** The properties of the configuration a method writes after [...options]. *)
Definition managed_keys (m : ApiMethod) : list string :=
  match m with
  | FetchApi | GetApi | DownloadApi => ["credentials"]
  | PostApi | PatchApi => ["body"; "credentials"; "headers"; "method"]
  | DeleteApi => ["credentials"; "headers"; "method"]
  | HeadApi => ["method"; "credentials"]
  end.

(** The body operation the [then] callback of a method returns on an ok
    response, with the settlement of that operation; headApi has none. *)
Definition mapped_body (m : ApiMethod) (r : Response) : option (Event * Settled JsValue) :=
  match m with
  | FetchApi | DeleteApi => Some (EvJson, json_body r)
  | PostApi | PatchApi =>
      if (status r =? 204)%Z
      then Some (EvText, settled_map JString (text_body r))
      else Some (EvJson, json_body r)
  | GetApi => Some (EvText, settled_map JString (text_body r))
  | HeadApi => None
  | DownloadApi => Some (EvBlob, settled_map JBlob (blob_body r))
  end.


(** The host left by a run of actions that starts with host [h0]: that of
    the last setHost or initConnect among them. *)
Definition host_after (window_location : Location) (h0 : string)
    (acts : list Action) : string :=
  foldl (fun h a =>
           match a with
           | ASetHost x | AInitConnect x => chosen_host window_location x
           | _ => h
           end) h0 acts.

(** The [fetch] call a request of the page stems from. *)
Definition fetch_event_of (r : Request) : Event :=
  EvFetch (input (promise r)) (init (promise r)).



(** ** Sample inputs *)

(** [JSON.stringify] on the one body the runs below send: [undefined || {}],
    the empty object. *)
Definition stringify_empty_object (_ : JsValue) : string := "{}".

Definition example_org : ConnectorClass := {| host := "example.org" |}.

Definition not_found : Response :=
  {| ok := false; status := 404; statusText := "Not Found";
     json_body := Rejected (SyntaxError "Unexpected token < in JSON at position 0");
     text_body := Resolved "<h1>Not Found</h1>";
     blob_body := Resolved {| blob_type := "text/html"; blob_bytes := [] |} |}.

Definition no_content : Response :=
  {| ok := true; status := 204; statusText := "No Content";
     json_body := Rejected (SyntaxError "Unexpected end of JSON input");
     text_body := Resolved EmptyString;
     blob_body := Resolved {| blob_type := EmptyString; blob_bytes := [] |} |}.

Definition ok_not_json : Response :=
  {| ok := true; status := 200; statusText := "OK";
     json_body := Rejected (SyntaxError "Unexpected token h in JSON at position 0");
     text_body := Resolved "hello";
     blob_body := Resolved {| blob_type := "text/plain"; blob_bytes := [] |} |}.

Definition created : Response :=
  {| ok := true; status := 201; statusText := "Created";
     json_body := Resolved (JObject [("id", JString "7")]);
     text_body := Resolved "created";
     blob_body := Resolved {| blob_type := "application/json"; blob_bytes := [] |} |}.

Definition body_locked : Response :=
  {| ok := true; status := 200; statusText := "OK";
     json_body := Rejected (TypeError "body stream already read");
     text_body := Rejected (TypeError "body stream already read");
     blob_body := Rejected (TypeError "body stream already read") |}.

Definition this_page : Page :=
  load {| location_host := "localhost:8080" |}.

(** * Properties *)

Section Properties.

Variable JSON_stringify : JsValue -> string.

Local Abbreviation call := (call_api JSON_stringify).

(** Unfolds a call down to the handlers of its promise chain, leaving the
    request configuration alone. *)
Ltac run_call :=
  unfold settlement, this_after, events, await, call_api, fetchApi, postApi,
    patchApi, deleteApi, getApi, headApi, downloadApi, bind, this_host, fetch,
    ret, catch_, then_;
  cbn [settle input init fst snd app].

(** ** What a call does before it returns *)

Lemma append_assoc (s1 s2 s3 : string) : (s1 +:+ s2) +:+ s3 = s1 +:+ s2 +:+ s3.
Proof.
  induction s1 as [|c s1 IH]; [reflexivity |].
  change (String c ((s1 +:+ s2) +:+ s3) = String c (s1 +:+ s2 +:+ s3)).
  by rewrite IH.
Qed.

Lemma documented_url_template h prefix path :
  "//" +:+ h +:+ "/" +:+ (if truthy_string prefix then prefix +:+ "/" else EmptyString) +:+ path
  = documented_url h prefix path.
Proof.
  unfold documented_url. destruct prefix as [|c s]; cbn.
  - reflexivity.
  - case_decide; [discriminate | by rewrite (append_assoc (String c s))].
Qed.

(** Every request method reads the host, hands the URL to [fetch], and
    returns; [this] is as before. *)
Lemma call_issue m path body options prefix this :
  let p := settlement (call m path body options prefix this) in
  call m path body options prefix this
  = (p, this, [EvHostRead (host this); EvFetch (input p) (init p)]).
Proof. destruct m; reflexivity. Qed.

Lemma call_input m path body options prefix this :
  input (settlement (call m path body options prefix this))
  = documented_url (host this) (default "api" prefix) path.
Proof. destruct m; run_call; apply documented_url_template. Qed.

Lemma on_error_events {A} err : (@on_error A err).1 = [].
Proof. destruct err; reflexivity. Qed.

(** Once the transport answers, the chain only ever touches the response
    body. *)
Lemma settle_events m path body options prefix this answer :
  let t := (settle (settlement (call m path body options prefix this)) answer).1 in
  t = body_reads t.
Proof.
  destruct answer as [r|err].
  - destruct m; run_call; destruct (ok r); cbn;
      try destruct (status r =? 204)%Z; cbn;
      try destruct (json_body r) as [?|[]]; cbn;
      try destruct (text_body r) as [?|[]]; cbn;
      try destruct (blob_body r) as [?|[]]; reflexivity.
  - destruct m, err; reflexivity.
Qed.
(** ** Response classification *)

(** C1. When the response is not ok, each of the six body-returning methods
    (all but headApi) rejects with an HttpError carrying the response's status
    and statusText, and none of json(), text(), blob() is called: the status
    is checked before the body is touched. *)
Theorem http_error_before_body_parsing m path body options prefix this r :
  body_returning m = true ->
  ok r = false ->
  let run := await (call m path body options prefix) this (Resolved r) in
  settlement run = Rejected (HttpError (status r) (statusText r)) /\
  body_reads (events run) = [].
Proof.
  intros Hm Hok.
  destruct m; try discriminate Hm; run_call; rewrite Hok; split; reflexivity.
Qed.

(** C2. Whatever the path, the prefix and the current host, every request
    method hands [fetch] the URL //host/prefix/path when the prefix is
    non-empty and //host/path when it is the empty string, the path going in
    character for character; a call without prefix uses "api". *)
Theorem request_url m path body options prefix this :
  let issued := call m path body options prefix this in
  let url := documented_url (host this) (default "api" prefix) path in
  input (settlement issued) = url /\
  (exists config, fetches (events issued) = [EvFetch url config]) /\
  input (settlement (call m path body options None this))
  = "//" +:+ host this +:+ "/api/" +:+ path.
Proof.
  cbn zeta. split; [apply call_input |]. split.
  - exists (init (settlement (call m path body options prefix this))).
    rewrite call_issue. cbn. by rewrite call_input.
  - by rewrite call_input.
Qed.

(** C3, as amended. When the response is ok and its json() rejects with a
    syntax error, fetchApi and deleteApi reject with the generic error whose
    message is "fetchApi: bad JSON", and so do postApi and patchApi unless the
    status is 204 (where they read text() instead of json()). *)
Theorem bad_json_rejection m path body options prefix this r msg :
  json_mapping m = true ->
  ok r = true ->
  json_body r = Rejected (SyntaxError msg) ->
  (m = PostApi \/ m = PatchApi -> status r <> 204%Z) ->
  settlement (await (call m path body options prefix) this (Resolved r))
  = Rejected (Error "fetchApi: bad JSON").
Proof.
  intros Hm Hok Hjson H204.
  destruct m; try discriminate Hm; run_call; rewrite Hok; cbn.
  2,3: destruct (Z.eqb_spec (status r) 204) as [E|_]; [exfalso; apply H204; auto |].
  all: unfold json; by rewrite Hjson.
Qed.

(** C4. If the transport call itself rejects with an error that is neither a
    SyntaxError nor an HttpError, each of the seven request methods rejects
    with a NetworkError carrying that error's message unchanged. *)
Theorem transport_failure_is_network_error m path body options prefix this err :
  instanceof_SyntaxError err = false ->
  instanceof_HttpError err = false ->
  settlement (await (call m path body options prefix) this (Rejected err))
  = Rejected (NetworkError (message_of err)).
Proof.
  intros Hsyntax Hhttp.
  destruct m; run_call; unfold on_error; by rewrite Hsyntax, Hhttp.
Qed.

(** C5. headApi resolves with false for an ok response and with true for a
    response that is not ok; it rejects exactly when the transport call
    rejected, never because of a status. *)
Theorem headApi_inverted_boolean path options prefix this :
  (forall r, settlement (await (headApi path options prefix) this (Resolved r))
             = Resolved (JBool (negb (ok r)))) /\
  (forall answer,
     (exists e, settlement (await (headApi path options prefix) this answer) = Rejected e)
     <-> (exists err, answer = Rejected err)).
Proof.
  split.
  - intros r. run_call. by destruct (ok r).
  - intros [r|err]; run_call; split.
    + destruct (ok r); intros [e He]; discriminate He.
    + intros [e He]; discriminate He.
    + eauto.
    + intros _. destruct err; cbn; eauto.
Qed.

(** C6. For an ok response, postApi and patchApi resolve with the text of the
    body, as read by text(), when the status is exactly 204, and with the
    value parsed by json() for every other status; in each case only that one
    body operation is called. *)
Theorem post_patch_204_text m path body options prefix this r :
  m = PostApi \/ m = PatchApi ->
  ok r = true ->
  let run := await (call m path body options prefix) this (Resolved r) in
  (status r = 204%Z -> forall s, text_body r = Resolved s ->
     settlement run = Resolved (JString s) /\ body_reads (events run) = [EvText]) /\
  (status r <> 204%Z -> forall v, json_body r = Resolved v ->
     settlement run = Resolved v /\ body_reads (events run) = [EvJson]).
Proof.
  intros Hm Hok.
  destruct Hm as [-> | ->]; run_call; rewrite Hok; cbn; split.
  all: destruct (Z.eqb_spec (status r) 204) as [E|E]; try contradiction.
  all: try (intros _ s Hs; unfold text; rewrite Hs; cbn; split; reflexivity).
  all: try (intros _ v Hv; unfold json; rewrite Hv; cbn; split; reflexivity).
Qed.

(** C9, as amended. getApi, headApi and downloadApi reject with the generic
    "fetchApi: bad JSON" error exactly when a SyntaxError reaches their catch
    handler: the transport call rejected with one, or (getApi, downloadApi)
    the response was ok and text(), respectively blob(), rejected with one.
    For every other transport outcome they do not reject with it. *)
Theorem bad_json_without_json_mapping m path body options prefix this answer :
  json_mapping m = false ->
  settlement (await (call m path body options prefix) this answer)
    = Rejected (Error "fetchApi: bad JSON")
  <->
  (exists msg, answer = Rejected (SyntaxError msg)) \/
  (exists r msg, answer = Resolved r /\ ok r = true /\
     ((m = GetApi /\ text_body r = Rejected (SyntaxError msg)) \/
      (m = DownloadApi /\ blob_body r = Rejected (SyntaxError msg)))).
Proof.
  intros Hm. destruct m; try discriminate Hm; clear Hm; run_call.
  all: destruct answer as [r|err]; cbn.
  (* the transport call rejected *)
  all: try (destruct err; cbn;
            (split;
             [ intros H; first [discriminate H | left; eexists; reflexivity]
             | intros [[msg H]|(r & msg & H & _)];
               first [discriminate H | reflexivity] ])).
  (* the transport call resolved with r *)
  all: destruct (ok r) eqn:Hok; cbn.
  (* r is not ok *)
  all: try (split; [ intros H; discriminate H
                   | intros [[msg H]|(r' & msg & H & H' & _)];
                     [ discriminate H | injection H as <-; congruence ] ]).
  - (* getApi on an ok response *)
    destruct (text_body r) as [s|e] eqn:Ht; cbn.
    + split; [intros H; discriminate H |].
      intros [[msg H]|(r' & msg & H & _ & [[_ H']|[H' _]])];
        [discriminate H | injection H as <-; congruence | discriminate H'].
    + destruct e; cbn; split.
      all: try (intros H; discriminate H).
      all: try (intros [[msg H]|(r' & msg & H & _ & [[_ H']|[H' _]])];
                [discriminate H | injection H as <-; congruence | discriminate H']).
      intros _. right. exists r. eexists. repeat split; eauto.
  - (* headApi on an ok response *)
    split; [intros H; discriminate H |].
    intros [[msg H]|(r' & msg & H & _ & [[H' _]|[H' _]])]; discriminate.
  - (* downloadApi on an ok response *)
    destruct (blob_body r) as [s|e] eqn:Ht; cbn.
    + split; [intros H; discriminate H |].
      intros [[msg H]|(r' & msg & H & _ & [[H' _]|[_ H']])];
        [discriminate H | discriminate H' | injection H as <-; congruence].
    + destruct e; cbn; split.
      all: try (intros H; discriminate H).
      all: try (intros [[msg H]|(r' & msg & H & _ & [[H' _]|[_ H']])];
                [discriminate H | discriminate H' | injection H as <-; congruence]).
      intros _. right. exists r. eexists. repeat split; eauto.
Qed.

(** ** The page: frames and stability *)

Local Abbreviation step_ := (step JSON_stringify).
Local Abbreviation exec_ := (exec JSON_stringify).

Lemma step_call pg m path body options prefix :
  let p := settlement (call m path body options prefix (Connector pg)) in
  step_ pg (ACall m path body options prefix)
  = {| window_location := window_location pg;
       Connector := Connector pg;
       requests := requests pg ++ [{| promise := p; outcome := None |}];
       trace := trace pg ++ [EvHostRead (host (Connector pg)); EvFetch (input p) (init p)] |}.
Proof. cbn zeta. unfold step. by rewrite call_issue. Qed.

Lemma new_events_app pg pg' t : trace pg' = trace pg ++ t -> new_events pg pg' = t.
Proof. unfold new_events. intros ->. apply drop_app_length. Qed.

Lemma new_events_same pg : new_events pg pg = [].
Proof. unfold new_events. apply drop_all. Qed.

Lemma step_window_location pg a : window_location (step_ pg a) = window_location pg.
Proof.
  destruct a as [m path body options prefix|h|h|io messager|id answer].
  - by rewrite step_call.
  - reflexivity.
  - reflexivity.
  - reflexivity.
  - cbn. destruct (requests pg !! id) as [[p [o|]]|]; try reflexivity.
    by destruct (settle p answer).
Qed.

(** A step that is not a call of setHost leaves the connector as it is. *)
Lemma step_connector pg a : calls_setHost a = false -> Connector (step_ pg a) = Connector pg.
Proof.
  destruct a as [m path body options prefix|h|h|io messager|id answer];
    intros Ha; try discriminate Ha.
  - by rewrite step_call.
  - reflexivity.
  - cbn. destruct (requests pg !! id) as [[p [o|]]|]; try reflexivity.
    by destruct (settle p answer).
Qed.

Lemma exec_cons pg a acts : exec_ pg (a :: acts) = exec_ (step_ pg a) acts.
Proof. reflexivity. Qed.

Lemma exec_connector pg acts :
  Forall (fun a => calls_setHost a = false) acts ->
  Connector (exec_ pg acts) = Connector pg.
Proof.
  intros Hacts. revert pg.
  induction Hacts as [|a acts Ha _ IH]; intros pg; [reflexivity |].
  rewrite exec_cons, IH. by apply step_connector.
Qed.

Lemma step_requests_length pg a : length (requests pg) <= length (requests (step_ pg a)).
Proof.
  destruct a as [m path body options prefix|h|h|io messager|id answer].
  - rewrite step_call. cbn. rewrite length_app. lia.
  - reflexivity.
  - reflexivity.
  - reflexivity.
  - cbn. destruct (requests pg !! id) as [[p [o|]]|]; try reflexivity.
    destruct (settle p answer). cbn. by rewrite length_insert.
Qed.

(** A request, once issued, keeps its promise: later steps can only record
    its outcome. *)
Lemma step_promise_of pg a id :
  id < length (requests pg) -> promise_of (step_ pg a) id = promise_of pg id.
Proof.
  intros Hid. unfold promise_of.
  destruct a as [m path body options prefix|h|h|io messager|id' answer].
  - rewrite step_call. cbn. by rewrite lookup_app_l.
  - reflexivity.
  - reflexivity.
  - reflexivity.
  - cbn. destruct (requests pg !! id') as [[p [o|]]|] eqn:E; try reflexivity.
    destruct (settle p answer) as [t s0]. cbn.
    destruct (decide (id' = id)) as [->|Hne].
    + rewrite list_lookup_insert_eq by done. by rewrite E.
    + by rewrite list_lookup_insert_ne.
Qed.

Lemma exec_promise_of pg acts id :
  id < length (requests pg) -> promise_of (exec_ pg acts) id = promise_of pg id.
Proof.
  revert pg. induction acts as [|a acts IH]; intros pg Hid; [reflexivity |].
  rewrite exec_cons, IH.
  - by apply step_promise_of.
  - pose proof (step_requests_length pg a). lia.
Qed.

(** Answering a request runs its chain at most once and adds nothing else. *)
Lemma answer_events pg id answer p :
  promise_of pg id = Some p ->
  new_events pg (step_ pg (AAnswer id answer)) = [] \/
  new_events pg (step_ pg (AAnswer id answer)) = (settle p answer).1.
Proof.
  unfold promise_of. intros Hp. cbn.
  destruct (requests pg !! id) as [[p' [o|]]|]; cbn in Hp; try discriminate Hp.
  - left. apply new_events_same.
  - injection Hp as ->. right.
    destruct (settle p answer) as [t s0]. by apply new_events_app.
Qed.

Lemma body_reads_only t :
  t = body_reads t -> host_reads t = [] /\ host_writes t = [] /\ fetches t = [].
Proof.
  intros ->. induction t as [|e t (IH1 & IH2 & IH3)]; [done |].
  destruct e; cbn; auto.
Qed.

(** ** The host *)

(** C7. setHost(h) stores h when h is a non-empty string and the ambient
    window.location.host when h is missing or empty; from then on, until
    setHost is called again, every request that is issued goes to the stored
    host. *)
Theorem setHost_assigns_or_resets pg h acts m path body options prefix :
  Forall (fun a => calls_setHost a = false) acts ->
  let pg1 := step_ pg (ASetHost h) in
  let pg2 := exec_ pg1 acts in
  let pg3 := step_ pg2 (ACall m path body options prefix) in
  let stored := chosen_host (window_location pg) h in
  (forall s, h = Some s -> s <> EmptyString -> stored = s) /\
  (h = None \/ h = Some EmptyString -> stored = location_host (window_location pg)) /\
  host (Connector pg1) = stored /\
  url_of pg3 (length (requests pg2))
  = Some (documented_url stored (default "api" prefix) path).
Proof.
  intros Hacts. cbn zeta. repeat split.
  - intros s -> Hs. by destruct s.
  - by intros [-> | ->].
  - by destruct h as [[|c s]|].
  - unfold url_of, promise_of. rewrite step_call. cbn [requests].
    rewrite lookup_app_r by done. rewrite Nat.sub_diag. cbn.
    rewrite call_input, exec_connector by done.
    by destruct h as [[|c s]|].
Qed.

(** C8. A request method reads the host once, when it is called, and hands
    the URL built from it to [fetch] before returning.  Whatever happens
    afterwards (setHost, other calls, answers), the request keeps that URL;
    answering it reads no host and fetches nothing; and a request issued
    later is built from the host of its own invocation time, in particular
    from the new host right after a setHost. *)
Theorem url_fixed_at_invocation pg m path body options prefix acts :
  let url := documented_url (host (Connector pg)) (default "api" prefix) path in
  let id := length (requests pg) in
  let pg1 := step_ pg (ACall m path body options prefix) in
  let pg2 := exec_ pg1 acts in
  (exists config,
     new_events pg pg1 = [EvHostRead (host (Connector pg)); EvFetch url config]) /\
  url_of pg2 id = Some url /\
  (forall answer,
     let pg3 := step_ pg2 (AAnswer id answer) in
     host_reads (new_events pg2 pg3) = [] /\
     fetches (new_events pg2 pg3) = [] /\
     url_of pg3 id = Some url) /\
  (forall m' path' body' options' prefix',
     url_of (step_ pg2 (ACall m' path' body' options' prefix')) (length (requests pg2))
     = Some (documented_url (host (Connector pg2)) (default "api" prefix') path')) /\
  (forall h m' path' body' options' prefix',
     let pg' := step_ (step_ pg1 (ASetHost h)) (ACall m' path' body' options' prefix') in
     url_of pg' id = Some url /\
     url_of pg' (S id)
     = Some (documented_url (chosen_host (window_location pg) h)
               (default "api" prefix') path')).
Proof.
  cbn zeta.
  set (p := settlement (call m path body options prefix (Connector pg))).
  assert (Hpg1 : promise_of (step_ pg (ACall m path body options prefix))
                   (length (requests pg)) = Some p).
  { unfold promise_of. rewrite step_call. cbn [requests].
    rewrite lookup_app_r by done. by rewrite Nat.sub_diag. }
  assert (Hlen : length (requests pg)
                 < length (requests (step_ pg (ACall m path body options prefix)))).
  { rewrite step_call. cbn [requests]. rewrite length_app. cbn. lia. }
  assert (Hpg2 : promise_of (exec_ (step_ pg (ACall m path body options prefix)) acts)
                   (length (requests pg)) = Some p).
  { by rewrite exec_promise_of. }
  assert (Hnew : forall pg0 m' path' body' options' prefix',
            url_of (step_ pg0 (ACall m' path' body' options' prefix'))
              (length (requests pg0))
            = Some (documented_url (host (Connector pg0)) (default "api" prefix') path')).
  { intros. unfold url_of, promise_of. rewrite step_call. cbn [requests].
    rewrite lookup_app_r by done. rewrite Nat.sub_diag. cbn. by rewrite call_input. }
  split; [| split; [| split; [| split]]].
  - exists (init p). apply new_events_app. rewrite step_call. cbn [trace].
    by rewrite call_input.
  - unfold url_of. rewrite Hpg2. cbn. apply f_equal, call_input.
  - intros answer.
    destruct (answer_events _ _ answer _ Hpg2) as [-> | ->].
    + repeat split; try reflexivity.
      unfold url_of. rewrite step_promise_of, Hpg2.
      * cbn. apply f_equal, call_input.
      * apply lookup_lt_is_Some. unfold promise_of in Hpg2.
        destruct (requests _ !! _); [eauto | discriminate Hpg2].
    + destruct (body_reads_only _ (settle_events m path body options prefix
                                     (Connector pg) answer)) as (Hr & _ & Hf).
      fold p in Hr, Hf. repeat split; try assumption.
      unfold url_of. rewrite step_promise_of, Hpg2.
      * cbn. apply f_equal, call_input.
      * apply lookup_lt_is_Some. unfold promise_of in Hpg2.
        destruct (requests _ !! _); [eauto | discriminate Hpg2].
  - intros. apply Hnew.
  - intros h m' path' body' options' prefix'. split.
    + unfold url_of. rewrite step_promise_of by exact Hlen.
      rewrite step_promise_of, Hpg1 by exact Hlen.
      cbn. apply f_equal, call_input.
    + replace (S (length (requests pg)))
        with (length (requests (step_ (step_ pg (ACall m path body options prefix))
                                  (ASetHost h)))).
      * rewrite Hnew. do 2 f_equal. rewrite step_call. cbn.
        by destruct h as [[|c s]|].
      * rewrite step_call. cbn. rewrite length_app. cbn. lia.
Qed.

(** C10. None of the seven request methods, from the call to the settlement
    of its promise, and not openSocketConnection either, assigns to the host:
    the connector after the call is the connector before it and no host write
    is observed.  On the page, every step other than a call of setHost or of
    initConnect leaves the connector unchanged, while those two do write the
    host, initConnect being setHost on the exported connector. *)
Theorem only_setHost_writes_host :
  (forall m path body options prefix this answer,
     let run := await (call m path body options prefix) this answer in
     this_after run = this /\ host_writes (events run) = []) /\
  (forall io messager this,
     let run := openSocketConnection io messager this in
     this_after run = this /\ host_writes (events run) = []) /\
  (forall pg a, calls_setHost a = false -> Connector (step_ pg a) = Connector pg) /\
  (forall pg a, calls_setHost a = true ->
     exists h, host_writes (new_events pg (step_ pg a)) = [EvHostWrite h] /\
               host (Connector (step_ pg a)) = h) /\
  (forall window_location h, initConnect window_location h = setHost window_location h).
Proof.
  split; [| split; [| split; [| split]]]; [| | | | reflexivity].
  - intros m path body options prefix this answer. cbn zeta.
    pose proof (settle_events m path body options prefix this answer) as Hs.
    cbn zeta in Hs. apply body_reads_only in Hs as (_ & Hw & _).
    unfold await. rewrite call_issue. cbn zeta.
    destruct (settle _ answer) as [t s0]. split; [reflexivity | apply Hw].
  - intros io messager this. split; reflexivity.
  - apply step_connector.
  - intros pg a. destruct a as [m path body options prefix|h|h|io messager|id answer];
      intros Ha; try discriminate Ha.
    all: exists (chosen_host (window_location pg) h); split;
      [ rewrite (new_events_app pg _ [EvHostWrite (chosen_host (window_location pg) h)])
      | idtac ].
    all: by destruct h as [[|c s]|].
Qed.

End Properties.

(** * Concrete runs *)

(** getApi on a 404: HttpError(404, "Not Found"), body untouched. *)
Lemma http_error_before_body_parsing_witness :
  let run := await (call_api stringify_empty_object GetApi "books" JUndefined None None)
               example_org (Resolved not_found) in
  settlement run = Rejected (HttpError 404 "Not Found") /\
  body_reads (events run) = [].
Proof.
  apply (http_error_before_body_parsing stringify_empty_object GetApi "books"
           JUndefined None None example_org not_found); reflexivity.
Defined.

(** The URLs of a default, an explicit and an empty prefix. *)
Example request_url_examples :
  input (settlement (getApi "books/1" None None example_org))
    = "//example.org/api/books/1" /\
  input (settlement (getApi "books/1" None (Some "v2") example_org))
    = "//example.org/v2/books/1" /\
  input (settlement (getApi "a b?c=d&e" None (Some EmptyString) example_org))
    = "//example.org/a b?c=d&e".
Proof. repeat split. Qed.

(** postApi on a 204 whose json() would fail on the empty body: the promise
    resolves with the text and is not rejected. *)
Lemma bad_json_rejection_counterexample :
  json_mapping PostApi = true /\
  ok no_content = true /\
  json_body no_content = Rejected (SyntaxError "Unexpected end of JSON input") /\
  settlement (await (call_api stringify_empty_object PostApi "books" JUndefined None None)
                example_org (Resolved no_content))
  = Resolved (JString EmptyString) /\
  settlement (await (call_api stringify_empty_object PostApi "books" JUndefined None None)
                example_org (Resolved no_content))
  <> Rejected (Error "fetchApi: bad JSON").
Proof. repeat split. intros H. discriminate H. Qed.

(** postApi on a 200 that is not JSON. *)
Lemma bad_json_rejection_witness :
  settlement (await (call_api stringify_empty_object PostApi "books" JUndefined None None)
                example_org (Resolved ok_not_json))
  = Rejected (Error "fetchApi: bad JSON").
Proof.
  apply (bad_json_rejection stringify_empty_object PostApi "books" JUndefined None None
           example_org ok_not_json "Unexpected token h in JSON at position 0").
  - reflexivity.
  - reflexivity.
  - reflexivity.
  - intros _. discriminate.
Defined.

(** The transport rejects with Error("boom"). *)
Lemma transport_failure_is_network_error_witness :
  settlement (await (call_api stringify_empty_object DeleteApi "books/1" JUndefined None None)
                example_org (Rejected (Error "boom")))
  = Rejected (NetworkError "boom").
Proof.
  apply (transport_failure_is_network_error stringify_empty_object DeleteApi "books/1"
           JUndefined None None example_org (Error "boom")); reflexivity.
Defined.

(** headApi on a 404 and on a 201. *)
Example headApi_examples :
  settlement (await (headApi "books/1" None None) example_org (Resolved not_found))
    = Resolved (JBool true) /\
  settlement (await (headApi "books/1" None None) example_org (Resolved created))
    = Resolved (JBool false).
Proof. split; reflexivity. Qed.

(** patchApi on a 204 and on a 201. *)
Lemma post_patch_204_text_witness :
  (let run := await (call_api stringify_empty_object PatchApi "books/1" JUndefined None None)
                example_org (Resolved no_content) in
   settlement run = Resolved (JString EmptyString) /\ body_reads (events run) = [EvText]) /\
  (let run := await (call_api stringify_empty_object PatchApi "books/1" JUndefined None None)
                example_org (Resolved created) in
   settlement run = Resolved (JObject [("id", JString "7")]) /\
   body_reads (events run) = [EvJson]).
Proof.
  split.
  - apply (post_patch_204_text stringify_empty_object PatchApi "books/1" JUndefined
             None None example_org no_content (or_intror eq_refl) eq_refl);
      reflexivity.
  - apply (post_patch_204_text stringify_empty_object PatchApi "books/1" JUndefined
             None None example_org created (or_intror eq_refl) eq_refl);
      [discriminate | reflexivity].
Defined.

(** setHost("cdn.example.org"), an answer to nothing, then deleteApi. *)
Lemma setHost_assigns_or_resets_witness :
  let pg1 := step stringify_empty_object this_page (ASetHost (Some "cdn.example.org")) in
  let pg2 := exec stringify_empty_object pg1 [AAnswer 3 (Rejected (Error "boom"))] in
  let pg3 := step stringify_empty_object pg2
               (ACall DeleteApi "books/1" JUndefined None None) in
  host (Connector pg1) = "cdn.example.org" /\
  url_of pg3 (length (requests pg2)) = Some "//cdn.example.org/api/books/1".
Proof.
  pose proof (setHost_assigns_or_resets stringify_empty_object this_page
                (Some "cdn.example.org") [AAnswer 3 (Rejected (Error "boom"))]
                DeleteApi "books/1" JUndefined None None
                ltac:(repeat constructor)) as (_ & _ & H1 & H2).
  split; [exact H1 | exact H2].
Defined.

(** setHost() and setHost("") fall back to window.location.host. *)
Example setHost_reset_examples :
  host (this_after (setHost {| location_host := "localhost:8080" |} None example_org))
    = "localhost:8080" /\
  host (this_after (setHost {| location_host := "localhost:8080" |} (Some EmptyString)
                      example_org))
    = "localhost:8080" /\
  host (this_after (setHost {| location_host := "localhost:8080" |} (Some "x") example_org))
    = "x".
Proof. repeat split. Qed.

(** getApi("a"), then setHost("new"), then the answer: the request went to
    the host of its invocation time; the one issued afterwards goes to
    "new". *)
Example race_with_setHost :
  let pg := exec stringify_empty_object this_page
              [ACall GetApi "a" JUndefined None None;
               ASetHost (Some "new");
               AAnswer 0 (Resolved ok_not_json);
               ACall GetApi "b" JUndefined None None] in
  fetches (trace pg)
    = [EvFetch "//localhost:8080/api/a" {["credentials" := JString "include"]};
       EvFetch "//new/api/b" {["credentials" := JString "include"]}] /\
  url_of pg 0 = Some "//localhost:8080/api/a" /\
  (outcome <$> requests pg !! 0) = Some (Some (Resolved (JString "hello"))) /\
  host_reads (trace pg) = [EvHostRead "localhost:8080"; EvHostRead "new"].
Proof. vm_compute. repeat split. Qed.

(** getApi when the transport rejects with a SyntaxError: the generic
    bad-JSON error, from a method whose success mapping is text. *)
Lemma bad_json_without_json_mapping_counterexample :
  json_mapping GetApi = false /\
  settlement (await (getApi "readme" None None) example_org
                (Rejected (SyntaxError "Unexpected token")))
  = Rejected (Error "fetchApi: bad JSON").
Proof. split; reflexivity. Qed.

(** downloadApi when the transport rejects with a SyntaxError. *)
Lemma bad_json_without_json_mapping_witness :
  settlement (await (call_api stringify_empty_object DownloadApi "file" JUndefined None None)
                example_org (Rejected (SyntaxError "Unexpected token")))
  = Rejected (Error "fetchApi: bad JSON").
Proof.
  apply (bad_json_without_json_mapping stringify_empty_object DownloadApi "file"
           JUndefined None None example_org _ eq_refl).
  left. eexists. reflexivity.
Defined.

(** openSocketConnection connects to the current host and hands the
    connection to the messager. *)
Example openSocketConnection_example :
  openSocketConnection {| connect := fun h => JString h |} (fun _ => tt) example_org
  = (tt, example_org,
     [EvHostRead "example.org"; EvConnect "example.org";
      EvMessager (JString "example.org")]).
Proof. reflexivity. Qed.

(** * Further properties *)

Section Coverage.

Variable JSON_stringify : JsValue -> string.

Local Abbreviation call := (call_api JSON_stringify).
Local Abbreviation step_ := (step JSON_stringify).
Local Abbreviation exec_ := (exec JSON_stringify).

Ltac run_method :=
  unfold settlement, this_after, events, await, call_api, fetchApi, postApi,
    patchApi, deleteApi, getApi, headApi, downloadApi, bind, this_host, fetch,
    ret, catch_, then_;
  cbn [settle input init fst snd app].

(** ** The request configuration *)

(** X1. Whatever the caller's options say, every request is sent with
    credentials "include", and postApi, patchApi, deleteApi and headApi send
    their own verb; fetchApi, getApi and downloadApi leave the verb to the
    caller's options. *)
Theorem credentials_and_verb m path body options prefix this :
  let config := init (settlement (call m path body options prefix this)) in
  config !! "credentials" = Some (JString "include") /\
  config !! "method" = match forced_method m with
                       | Some verb => Some (JString verb)
                       | None => default ∅ options !! "method"
                       end.
Proof.
  cbn zeta. destruct m; run_method; split; by simplify_map_eq.
Qed.

(** X2. postApi, patchApi and deleteApi replace the caller's headers as a
    whole by { Content-Type: application/json }: no header of the options
    survives.  The other four methods pass the caller's headers on. *)
Theorem headers_replaced_or_kept m path body options prefix this :
  init (settlement (call m path body options prefix this)) !! "headers"
  = if forces_headers m then Some json_headers
    else default ∅ options !! "headers".
Proof. destruct m; run_method; by simplify_map_eq. Qed.

(** X3. postApi and patchApi send JSON.stringify(body) when the body is
    truthy and JSON.stringify({}) when it is falsy (undefined, null, false,
    0, the empty string), whatever body the options carry; the other methods
    send the body of the options, if any. *)
Theorem request_body m path body options prefix this :
  let config := init (settlement (call m path body options prefix this)) in
  (sends_body m = true ->
     config !! "body"
     = Some (JString (JSON_stringify (if truthy body then body else JObject [])))) /\
  (sends_body m = true ->
     body ∈ [JUndefined; JNull; JBool false; JNumber 0; JString EmptyString] ->
     config !! "body" = Some (JString (JSON_stringify (JObject [])))) /\
  (sends_body m = false -> config !! "body" = default ∅ options !! "body").
Proof.
  cbn zeta. split; [| split].
  - destruct m; intros Hm; try discriminate Hm; run_method; by simplify_map_eq.
  - destruct m; intros Hm; try discriminate Hm; run_method; intros Hb.
    all: assert (truthy body = false) as ->
      by (repeat (apply elem_of_cons in Hb as [-> | Hb]; [reflexivity |]);
          by apply elem_of_nil in Hb).
    all: by simplify_map_eq.
  - destruct m; intros Hm; try discriminate Hm; run_method; by simplify_map_eq.
Qed.

(** X4. Every property of the options that the method does not write itself
    reaches fetch unchanged, and the configuration has no property beyond
    those of the options and the ones the method writes. *)
Theorem options_pass_through m path body options prefix this k :
  k ∉ managed_keys m ->
  init (settlement (call m path body options prefix this)) !! k
  = default ∅ options !! k.
Proof.
  intros Hk. destruct m; run_method; cbn in Hk.
  all: repeat (apply not_elem_of_cons in Hk as [? Hk]).
  all: by simplify_map_eq.
Qed.


(** ** Settlement of a request, case by case *)

Lemma on_error_settlement (err : JsError) :
  (@on_error JsValue err).2
  = Rejected (if instanceof_SyntaxError err then Error "fetchApi: bad JSON"
              else if instanceof_HttpError err then err
              else NetworkError (message_of err)).
Proof. by destruct err. Qed.

Lemma await_rejected m path body options prefix this err :
  let run := await (call m path body options prefix) this (Rejected err) in
  settlement run = (@on_error JsValue err).2 /\ body_reads (events run) = [].
Proof. cbn zeta. destruct m; run_method; by destruct err. Qed.

Lemma await_not_ok m path body options prefix this r :
  ok r = false ->
  let run := await (call m path body options prefix) this (Resolved r) in
  settlement run = (if body_returning m
                    then Rejected (HttpError (status r) (statusText r))
                    else Resolved (JBool true)) /\
  body_reads (events run) = [].
Proof. intros Hok. cbn zeta. destruct m; run_method; by rewrite Hok. Qed.

Lemma await_ok_body m path body options prefix this r ev s :
  ok r = true ->
  mapped_body m r = Some (ev, s) ->
  let run := await (call m path body options prefix) this (Resolved r) in
  settlement run = match s with
                   | Resolved v => Resolved v
                   | Rejected e => (@on_error JsValue e).2
                   end /\
  body_reads (events run) = [ev].
Proof.
  intros Hok Hmap. cbn zeta.
  destruct m; cbn in Hmap; try discriminate Hmap; run_method; rewrite Hok; cbn.
  all: try destruct (status r =? 204)%Z.
  all: injection Hmap as <- <-; cbn.
  all: match goal with
       | |- context [json_body ?x] => destruct (json_body x) as [?|[]]
       | |- context [text_body ?x] => destruct (text_body x) as [?|[]]
       | |- context [blob_body ?x] => destruct (blob_body x) as [?|[]]
       end; split; reflexivity.
Qed.

Lemma await_ok_head m path body options prefix this r :
  ok r = true ->
  mapped_body m r = None ->
  let run := await (call m path body options prefix) this (Resolved r) in
  settlement run = Resolved (JBool false) /\ body_reads (events run) = [].
Proof.
  intros Hok Hmap. cbn zeta.
  destruct m; cbn in Hmap; try discriminate Hmap.
  1,2: by destruct (status r =? 204)%Z.
  run_method. by rewrite Hok.
Qed.


(** X7. An HttpError that the transport call itself rejects with is rethrown
    unchanged by all seven methods, headApi included, and the body is not
    read. *)
Theorem transport_http_error_rethrown m path body options prefix this code reason :
  let run := await (call m path body options prefix) this
               (Rejected (HttpError code reason)) in
  settlement run = Rejected (HttpError code reason) /\
  body_reads (events run) = [].
Proof. apply await_rejected. Qed.

(** X8. When the response is ok and the body operation the method calls
    rejects with an error that is neither a SyntaxError nor an HttpError
    (a TypeError for a body already read, an abort), the method rejects with
    a NetworkError carrying that error's message, although the transport
    call itself succeeded. *)
Theorem body_failure_is_network_error m path body options prefix this r ev e :
  ok r = true ->
  mapped_body m r = Some (ev, Rejected e) ->
  instanceof_SyntaxError e = false ->
  instanceof_HttpError e = false ->
  let run := await (call m path body options prefix) this (Resolved r) in
  settlement run = Rejected (NetworkError (message_of e)) /\
  body_reads (events run) = [ev].
Proof.
  intros Hok Hmap Hsyntax Hhttp.
  destruct (await_ok_body m path body options prefix this r _ _ Hok Hmap) as [H1 H2].
  split; [| exact H2].
  by rewrite H1, on_error_settlement, Hsyntax, Hhttp.
Qed.

(** X9. On an ok response whose body operation succeeds, fetchApi and
    deleteApi resolve with the value of json(), getApi with the string of
    text(), and downloadApi with the blob of blob(), each unchanged, and no
    other body operation is called. *)
Theorem success_mappings path options prefix this r :
  ok r = true ->
  (forall v, json_body r = Resolved v ->
     let run := await (fetchApi path options prefix) this (Resolved r) in
     let run' := await (deleteApi path options prefix) this (Resolved r) in
     settlement run = Resolved v /\ body_reads (events run) = [EvJson] /\
     settlement run' = Resolved v /\ body_reads (events run') = [EvJson]) /\
  (forall s, text_body r = Resolved s ->
     let run := await (getApi path options prefix) this (Resolved r) in
     settlement run = Resolved (JString s) /\ body_reads (events run) = [EvText]) /\
  (forall b, blob_body r = Resolved b ->
     let run := await (downloadApi path options prefix) this (Resolved r) in
     settlement run = Resolved (JBlob b) /\ body_reads (events run) = [EvBlob]).
Proof.
  intros Hok. split; [| split].
  - intros v Hv. run_method. rewrite Hok. cbn. unfold json. by rewrite Hv.
  - intros s Hs. run_method. rewrite Hok. cbn. unfold text. by rewrite Hs.
  - intros b Hb. run_method. rewrite Hok. cbn. unfold blob. by rewrite Hb.
Qed.

(** X10. The declared result types hold for every answer of the transport:
    getApi only ever resolves with a string, headApi with a boolean and
    downloadApi with a blob. *)
Theorem resolved_value_types path options prefix this answer v :
  (settlement (await (getApi path options prefix) this answer) = Resolved v ->
     exists s, v = JString s) /\
  (settlement (await (headApi path options prefix) this answer) = Resolved v ->
     exists b, v = JBool b) /\
  (settlement (await (downloadApi path options prefix) this answer) = Resolved v ->
     exists b, v = JBlob b).
Proof.
  split; [| split]; run_method.
  all: destruct answer as [r|[]]; cbn; try discriminate.
  all: destruct (ok r); cbn; try discriminate.
  - destruct (text_body r) as [s|[]]; cbn; try discriminate. intros [= <-]. eauto.
  - intros [= <-]. eauto.
  - intros [= <-]. eauto.
  - destruct (blob_body r) as [b|[]]; cbn; try discriminate. intros [= <-]. eauto.
Qed.

(** X11. One call is one round trip: from the call to the settlement of its
    promise a method calls fetch exactly once, with the documented URL, and
    reads the body at most once; it never reads the body when the transport
    call rejected, and headApi never reads it at all. *)
Theorem one_round_trip m path body options prefix this answer :
  let run := await (call m path body options prefix) this answer in
  (exists config,
     fetches (events run)
     = [EvFetch (documented_url (host this) (default "api" prefix) path) config]) /\
  length (body_reads (events run)) <= 1 /\
  (forall err, answer = Rejected err -> body_reads (events run) = []) /\
  (m = HeadApi -> body_reads (events run) = []).
Proof.
  cbn zeta.
  pose proof (settle_events JSON_stringify m path body options prefix this answer) as Hs.
  cbn zeta in Hs.
  assert (Hev : events (await (call m path body options prefix) this answer)
                = [EvHostRead (host this);
                   EvFetch (documented_url (host this) (default "api" prefix) path)
                     (init (settlement (call m path body options prefix this)))]
                  ++ (settle (settlement (call m path body options prefix this)) answer).1).
  { unfold await. rewrite call_issue. cbn zeta. rewrite call_input.
    by destruct (settle _ answer). }
  split; [| split; [| split]].
  - eexists. rewrite Hev. unfold fetches. rewrite List.filter_app. cbn.
    apply body_reads_only in Hs as (_ & _ & Hf). unfold fetches in Hf.
    by rewrite Hf.
  - destruct answer as [r|err].
    + destruct (ok r) eqn:Hok.
      * destruct (mapped_body m r) as [[ev s]|] eqn:Hmap.
        -- destruct (await_ok_body m path body options prefix this r _ _ Hok Hmap)
             as [_ ->]. cbn. lia.
        -- destruct (await_ok_head m path body options prefix this r Hok Hmap)
             as [_ ->]. cbn. lia.
      * destruct (await_not_ok m path body options prefix this r Hok) as [_ ->].
        cbn. lia.
    + destruct (await_rejected m path body options prefix this err) as [_ ->].
      cbn. lia.
  - intros err ->. apply await_rejected.
  - intros ->. destruct answer as [r|err]; [| apply await_rejected].
    destruct (ok r) eqn:Hok.
    + by apply await_ok_head.
    + by apply await_not_ok.
Qed.

(** ** The URL, once more *)

(** X12. A non-empty prefix is nothing but a leading path segment: calling a
    method with prefix p and path q sends the same request as calling it with
    the empty prefix and the path p/q. *)
Theorem prefix_is_a_path_segment m p q body options this :
  p <> EmptyString ->
  let with_prefix := call m q body options (Some p) this in
  let in_path := call m (p +:+ "/" +:+ q) body options (Some EmptyString) this in
  input (settlement with_prefix) = input (settlement in_path) /\
  init (settlement with_prefix) = init (settlement in_path) /\
  events with_prefix = events in_path.
Proof.
  intros Hp. cbn zeta.
  assert (Hurl : input (settlement (call m q body options (Some p) this))
                 = input (settlement (call m (p +:+ "/" +:+ q) body options
                                        (Some EmptyString) this))).
  { rewrite !call_input. unfold documented_url. cbn [default from_option id].
    case_decide; [contradiction | reflexivity]. }
  assert (Hinit : init (settlement (call m q body options (Some p) this))
                  = init (settlement (call m (p +:+ "/" +:+ q) body options
                                        (Some EmptyString) this))).
  { by destruct m. }
  split; [exact Hurl | split; [exact Hinit |]].
  rewrite (call_issue JSON_stringify m q), (call_issue JSON_stringify m (p +:+ "/" +:+ q)).
  cbn zeta. unfold events. cbn [snd]. by rewrite Hurl, Hinit.
Qed.

(** ** The page as it runs *)

Lemma exec_window_location pg acts :
  window_location (exec_ pg acts) = window_location pg.
Proof.
  revert pg. induction acts as [|a acts IH]; intros pg; [reflexivity |].
  by rewrite exec_cons, IH, step_window_location.
Qed.

Lemma step_host pg a :
  host (Connector (step_ pg a))
  = match a with
    | ASetHost x | AInitConnect x => chosen_host (window_location pg) x
    | _ => host (Connector pg)
    end.
Proof.
  destruct a as [m path body options prefix|[[|c s]|]|[[|c s]|]|io messager|id answer];
    try reflexivity.
  - by rewrite step_connector.
  - by rewrite step_connector.
Qed.

(** X13. The host of the connector is the one chosen by the last setHost or
    initConnect that ran, and the host it had before if none ran: no other
    action, and no answer of the transport, has a say. *)
Theorem host_is_set_by_last_setHost pg acts :
  host (Connector (exec_ pg acts))
  = host_after (window_location pg) (host (Connector pg)) acts.
Proof.
  revert pg. induction acts as [|a acts IH]; intros pg; [reflexivity |].
  rewrite exec_cons, IH, step_window_location, step_host.
  by destruct a.
Qed.

(** X14. A freshly loaded module talks to window.location.host, and
    setHost() without argument brings the connector back to that host
    whatever has happened since: the next request goes to it. *)
Theorem reset_restores_initial_host w acts m path body options prefix :
  let fresh := load w in
  let pg := step_ (exec_ fresh acts) (ASetHost None) in
  host (Connector fresh) = location_host w /\
  Connector pg = Connector fresh /\
  url_of (step_ pg (ACall m path body options prefix)) (length (requests pg))
  = Some (documented_url (location_host w) (default "api" prefix) path).
Proof.
  cbn zeta. split; [reflexivity |].
  assert (Hc : Connector (step_ (exec_ (load w) acts) (ASetHost None))
               = Connector (load w)).
  { cbn. by rewrite exec_window_location. }
  split; [exact Hc |].
  remember (step_ (exec_ (load w) acts) (ASetHost None)) as pg eqn:Epg.
  unfold url_of, promise_of. rewrite step_call. cbn [requests].
  rewrite lookup_app_r by done. rewrite Nat.sub_diag. cbn.
  by rewrite call_input, Hc.
Qed.

(** X15. openSocketConnection calls io.connect with the host in force, then
    messager, once, with exactly the connection io.connect returned; it
    issues no request.  Right after setHost(x) the host in force is the one
    setHost stored. *)
Theorem socket_connects_to_current_host pg io messager x :
  let pg' := step_ pg (AOpenSocket io messager) in
  let h := host (Connector pg) in
  let pg1 := step_ pg (ASetHost x) in
  let h1 := chosen_host (window_location pg) x in
  new_events pg pg' = [EvHostRead h; EvConnect h; EvMessager (connect io h)] /\
  requests pg' = requests pg /\
  new_events pg1 (step_ pg1 (AOpenSocket io messager))
  = [EvHostRead h1; EvConnect h1; EvMessager (connect io h1)].
Proof.
  cbn zeta. split; [| split].
  - by apply new_events_app.
  - reflexivity.
  - apply new_events_app. cbn. by destruct x as [[|c s]|].
Qed.

Local Abbreviation issued_by_a_call r :=
  (exists m path body options prefix this,
     promise r = settlement (call m path body options prefix this)).

Lemma fetches_app t1 t2 : fetches (t1 ++ t2) = fetches t1 ++ fetches t2.
Proof. apply List.filter_app. Qed.

Lemma step_fetch_log pg a :
  fetches (trace pg) = fetch_event_of <$> requests pg ->
  Forall (fun r => issued_by_a_call r) (requests pg) ->
  fetches (trace (step_ pg a)) = fetch_event_of <$> requests (step_ pg a) /\
  Forall (fun r => issued_by_a_call r) (requests (step_ pg a)).
Proof.
  intros Hlog Hreq.
  destruct a as [m path body options prefix|h|h|io messager|id answer].
  - rewrite step_call. cbn [trace requests]. split.
    + rewrite fetches_app, fmap_app, Hlog. reflexivity.
    + apply Forall_app. split; [exact Hreq |].
      apply Forall_singleton. cbn. by exists m, path, body, options, prefix, (Connector pg).
  - cbn. rewrite fetches_app, Hlog. cbn. by rewrite app_nil_r.
  - cbn. rewrite fetches_app, Hlog. cbn. by rewrite app_nil_r.
  - cbn. rewrite fetches_app, Hlog. cbn. by rewrite app_nil_r.
  - cbn. destruct (requests pg !! id) as [[p [o|]]|] eqn:E; try done.
    pose proof (proj1 (Forall_lookup _ _) Hreq _ _ E) as Hp. cbn in Hp.
    destruct Hp as (m & path & body & options & prefix & this & ->).
    pose proof (settle_events JSON_stringify m path body options prefix this answer) as Hs.
    cbn zeta in Hs. apply body_reads_only in Hs as (_ & _ & Hf).
    destruct (settle _ answer) as [t s0]. cbn [trace requests fst] in *. split.
    + rewrite fetches_app, Hf, app_nil_r, Hlog, list_fmap_insert.
      symmetry. apply list_insert_id. by rewrite list_lookup_fmap, E.
    + apply Forall_insert; [exact Hreq |]. cbn.
      by exists m, path, body, options, prefix, this.
Qed.

(** X16. The fetch calls and the requests of a page correspond one to one
    and in order: after any run from a fresh load, the fetch calls observed
    are exactly those of the requests in the table.  No request is issued
    without a fetch and nothing, an answer least of all, fetches again. *)
Theorem fetch_log_matches_requests w acts :
  let pg := exec_ (load w) acts in
  fetches (trace pg) = fetch_event_of <$> requests pg.
Proof.
  cbn zeta.
  assert (H : forall pg,
             fetches (trace pg) = fetch_event_of <$> requests pg ->
             Forall (fun r => issued_by_a_call r) (requests pg) ->
             fetches (trace (exec_ pg acts))
             = fetch_event_of <$> requests (exec_ pg acts)).
  { induction acts as [|a acts IH]; intros pg Hlog Hreq; [exact Hlog |].
    rewrite exec_cons.
    destruct (step_fetch_log pg a Hlog Hreq) as [Hlog' Hreq'].
    by apply IH. }
  apply H; [reflexivity | constructor].
Qed.






End Coverage.

(** * Further concrete runs *)

(** deleteApi with a cache option: the option reaches fetch. *)
Lemma options_pass_through_witness :
  init (settlement (call_api stringify_empty_object DeleteApi "books/1" JUndefined
                      (Some {["cache" := JString "no-store"]}) None example_org))
    !! "cache"
  = default ∅ (Some ({["cache" := JString "no-store"]} : RequestInit)) !! "cache".
Proof.
  apply (options_pass_through stringify_empty_object DeleteApi "books/1" JUndefined
           (Some {["cache" := JString "no-store"]}) None example_org "cache").
  cbn. intros H.
  repeat (apply elem_of_cons in H as [H|H]; [discriminate H |]).
  by apply elem_of_nil in H.
Defined.

(** What the caller's headers and verb become under postApi and fetchApi. *)
Example configuration_examples :
  let options : RequestInit :=
    {["headers" := JObject [("Authorization", JString "Bearer t")];
      "method" := JString "PUT"; "credentials" := JString "omit"]} in
  let post := init (settlement (postApi stringify_empty_object "books" JNull
                                  (Some options) None example_org)) in
  let plain := init (settlement (fetchApi "books" (Some options) None example_org)) in
  post = {["method" := JString "POST"; "headers" := json_headers;
           "credentials" := JString "include"; "body" := JString "{}"]} /\
  plain = {["headers" := JObject [("Authorization", JString "Bearer t")];
            "method" := JString "PUT"; "credentials" := JString "include"]}.
Proof. vm_compute. split; reflexivity. Qed.


(** getApi on an ok response whose body cannot be read any more. *)
Lemma body_failure_is_network_error_witness :
  let run := await (call_api stringify_empty_object GetApi "books" JUndefined None None)
               example_org (Resolved body_locked) in
  settlement run = Rejected (NetworkError "body stream already read") /\
  body_reads (events run) = [EvText].
Proof.
  apply (body_failure_is_network_error stringify_empty_object GetApi "books" JUndefined
           None None example_org body_locked EvText
           (TypeError "body stream already read")); reflexivity.
Defined.

(** downloadApi on a 201 with a blob. *)
Lemma success_mappings_witness :
  let run := await (downloadApi "file" None None) example_org (Resolved created) in
  settlement run
    = Resolved (JBlob {| blob_type := "application/json"; blob_bytes := [] |}) /\
  body_reads (events run) = [EvBlob].
Proof.
  destruct (success_mappings "file" None None example_org created eq_refl)
    as (_ & _ & H).
  apply (H _ eq_refl).
Defined.

(** getApi("books", {}, "v2") and getApi("v2/books", {}, ""). *)
Lemma prefix_is_a_path_segment_witness :
  input (settlement (call_api stringify_empty_object GetApi "books" JUndefined None
                       (Some "v2") example_org))
  = input (settlement (call_api stringify_empty_object GetApi ("v2" +:+ "/" +:+ "books")
                         JUndefined None (Some EmptyString) example_org)).
Proof.
  destruct (prefix_is_a_path_segment stringify_empty_object GetApi "v2" "books"
              JUndefined None example_org) as (H & _).
  - discriminate.
  - exact H.
Defined.

(** A run with two hosts, a socket and an answer in between. *)
Example host_after_example :
  host (Connector (exec stringify_empty_object this_page
                     [ASetHost (Some "a.example.org");
                      ACall GetApi "x" JUndefined None None;
                      AInitConnect (Some "b.example.org");
                      AAnswer 0 (Resolved created);
                      AOpenSocket {| connect := JString |} (fun _ => tt)]))
  = "b.example.org".
Proof. reflexivity. Qed.

